(** * Helia CID calculator: the [HeliaApp] component of [src/App.tsx]

  The component keeps five React state cells ([files], [results],
  [isProcessing], [error], [heliaInstance]) and one asynchronous
  operation, [calculateCIDs], which hands the selected files to the
  Helia UnixFS importer ([fs.addBytes] / [fs.addAll]) and publishes
  the records it gets back.  The importer is an external library: it
  is taken here as an interface ([Backend]) whose operations thread
  the node's store, may reject, and - for the [addAll] generator -
  may throw after having yielded some entries. *)

From Stdlib Require Import String Ascii List Bool Arith NArith Lia.
From Equations Require Import Equations.
Import ListNotations.
Local Open Scope string_scope.
Local Open Scope list_scope.

Set Implicit Arguments.

(** ** JavaScript primitives used by the component *)
Module Js.

(** A thrown value as the template literal [`${err}`] renders it. *)
Definition Error := string.

(** A byte buffer ([Uint8Array]). *)
Definition bytes := list Byte.byte.

(** A promise once it has settled. *)
Inductive Settled (A : Type) : Type :=
| Fulfilled (a : A)
| Rejected (e : Error).
Arguments Rejected {A} e.

(** Truthiness of a string: every string but the empty one. *)
Definition truthy (s : string) : bool := negb (s =? "").

(** [a || d] where [a] is a string and [d] the fallback. *)
Definition oror (a d : string) : string := if truthy a then a else d.

(** [a || d] where [a] may be [undefined] (a missing property, or the
    result of an optional chain [?.]). *)
Definition orElse (a : option string) (d : string) : string :=
  match a with
  | Some s => oror s d
  | None => d
  end.

(** [s.includes(needle)]: [needle] occurs in [s] as a substring. *)
Fixpoint includes (s needle : string) : bool :=
  if prefix needle s then true
  else match s with
       | EmptyString => false
       | String _ s' => includes s' needle
       end.

(** [Promise.all]: fulfilled with every value, in order, when all the
    promises are; rejected otherwise.  When several promises reject the
    reason kept is that of the first in list order (the promises are
    all created before any of them settles). *)
Fixpoint promise_all {A : Type} (ps : list (Settled A)) : Settled (list A) :=
  match ps with
  | [] => Fulfilled []
  | Fulfilled a :: ps' =>
      match promise_all ps' with
      | Fulfilled l => Fulfilled (a :: l)
      | Rejected e => Rejected e
      end
  | Rejected e :: _ => Rejected e
  end.

(** [xs[xs.length - 1]]: [undefined] on the empty array. *)
Definition last_opt {A : Type} (xs : list A) : option A :=
  nth_error xs (length xs - 1).

End Js.
Import Js.

(** ** Data passed between the component and the importer *)

(** A browser [File]: the two names the component reads, and what
  [file.arrayBuffer()] settles to. *)
Record File : Type := mkFile {
  webkitRelativePath : string;
  name : string;
  arrayBuffer : Settled bytes
}.

(** [{ path, content }], the importer's input candidate. *)
Record FileEntry : Type := mkFileEntry {
  path : string;
  content : bytes
}.

Record ChunkerOptions : Type := mkChunkerOptions {
  maxChunkSize : N
}.

(** The object literal [kuboCompatibleOptions]. *)
Record Options : Type := mkOptions {
  cidVersion : N;
  rawLeaves : bool;
  trickle : bool;
  chunkerOptions : ChunkerOptions;
  wrapWithDirectory : bool
}.

(** A published record [{ path, cid, size, type }]. *)
Record Result : Type := mkResult {
  result_path : string;
  result_cid : string;
  result_size : N;
  result_type : string
}.

(** An entry yielded by [fs.addAll]; [entry_type] is [None] when the
  entry has no [type] property. *)
Record ImportEntry (Cid : Type) : Type := mkImportEntry {
  entry_path : string;
  entry_cid : Cid;
  entry_size : N;
  entry_type : option string
}.

(** The Helia node and its UnixFS facade.  [Store] is the node's mutable
  state (its blockstore); every operation returns the store it leaves
  behind.  [addAll] is an asynchronous generator: it is given by the
  entries it yields and, when it ends by throwing, the thrown value. *)
Record Backend (Store Cid : Type) : Type := mkBackend {
  cid_toString : Cid -> string;
  createHelia : Settled Store;
  addBytes : Store -> bytes -> Options -> Store * Settled Cid;
  addAll : Store -> list FileEntry -> Options ->
           Store * (list (ImportEntry Cid) * option Error)
}.

(** ** The component *)
Section HeliaApp.

Variables Store Cid : Type.
Variable B : Backend Store Cid.

(** The five [useState] cells. *)
Record AppState : Type := mkAppState {
  files : list File;
  results : list Result;
  isProcessing : bool;
  error : string;
  heliaInstance : option Store
}.

(** What a run does that is visible from outside: the setter calls and
    the importer calls, in program order. *)
Inductive Effect : Type :=
| SetResults (rs : list Result)
| SetIsProcessing (b : bool)
| SetError (msg : string)
| CallAddBytes (c : bytes) (o : Options)
| CallAddAll (es : list FileEntry) (o : Options).

Record World : Type := mkWorld {
  app : AppState;
  trace : list Effect
}.

(** How a statement list completes. *)
Inductive Completion (A : Type) : Type :=
| Normal (a : A)
| Return
| Throw (e : Error).
Arguments Return {A}.
Arguments Throw {A} e.

Definition M (A : Type) : Type := World -> World * Completion A.

Definition ret {A : Type} (a : A) : M A := fun w => (w, Normal a).

Definition bind {A C : Type} (m : M A) (k : A -> M C) : M C :=
  fun w =>
    match m w with
    | (w', Normal a) => k a w'
    | (w', Return) => (w', Return)
    | (w', Throw e) => (w', Throw e)
    end.

Definition return_ {A : Type} : M A := fun w => (w, Return).

Definition await {A : Type} (p : Settled A) : M A :=
  fun w =>
    match p with
    | Fulfilled a => (w, Normal a)
    | Rejected e => (w, Throw e)
    end.

Definition emit (ev : Effect) (f : AppState -> AppState) : M unit :=
  fun w => (mkWorld (f (app w)) (trace w ++ [ev]), Normal tt).

Definition setResults (rs : list Result) : M unit :=
  emit (SetResults rs)
    (fun s => mkAppState (files s) rs (isProcessing s) (error s) (heliaInstance s)).

Definition setIsProcessing (b : bool) : M unit :=
  emit (SetIsProcessing b)
    (fun s => mkAppState (files s) (results s) b (error s) (heliaInstance s)).

Definition setError (msg : string) : M unit :=
  emit (SetError msg)
    (fun s => mkAppState (files s) (results s) (isProcessing s) msg (heliaInstance s)).

(** The store behind the shared [heliaInstance] object after a call. *)
Definition putStore (st : Store) (s : AppState) : AppState :=
  mkAppState (files s) (results s) (isProcessing s) (error s) (Some st).

(** [try { body } catch (err) { handler } finally { fin }]. *)
Definition try_catch_finally (body : M unit) (handler : Error -> M unit)
    (fin : M unit) : M unit :=
  fun w =>
    let (w1, c1) := body w in
    let (w2, c2) :=
      match c1 with
      | Throw e => handler e w1
      | _ => (w1, c1)
      end in
    let (w3, c3) := fin w2 in
    match c3 with
    | Normal _ => (w3, c2)
    | _ => (w3, c3)
    end.

Notation "x <- m ;; k" := (bind m (fun x => k))
  (at level 61, m at next level, right associativity).
Notation "m ;;; k" := (bind m (fun _ => k))
  (at level 61, right associativity).

Definition setFiles (fs : list File) : M unit :=
fun w =>
  (mkWorld (mkAppState fs (results (app w)) (isProcessing (app w))
              (error (app w)) (heliaInstance (app w)))
     (trace w), Normal tt).

Definition setHeliaInstance (st : Store) : M unit :=
fun w => (mkWorld (putStore st (app w)) (trace w), Normal tt).

(** [fs.addBytes(content, options)] on the shared instance. *)
Definition fs_addBytes (st : Store) (c : bytes) (o : Options) : M Cid :=
fun w =>
  let (st', r) := addBytes B st c o in
  (mkWorld (putStore st' (app w)) (trace w ++ [CallAddBytes c o]),
   match r with
   | Fulfilled cid => Normal cid
   | Rejected e => Throw e
   end).

(** Draining [fs.addAll(entries, options)] with [for await]: the loop
    body runs once per yielded entry, then the generator either ends or
    throws. *)
Definition fs_addAll (st : Store) (es : list FileEntry) (o : Options)
  : M (list (ImportEntry Cid) * option Error) :=
fun w =>
  let (st', r) := addAll B st es o in
  (mkWorld (putStore st' (app w)) (trace w ++ [CallAddAll es o]), Normal r).

(** The mount effect: [initHelia]. *)
Definition initHelia : M unit :=
try_catch_finally
  (st <- await (createHelia B) ;; setHeliaInstance st)
  (fun err => setError ("Failed to initialize Helia: " ++ err))
  (ret tt).

(** [handleFileSelection]. *)
Definition handleFileSelection (selectedFiles : list File) : M unit :=
setFiles selectedFiles ;;; setResults [] ;;; setError "".

(** [file.webkitRelativePath || file.name]. *)
Definition filePath (file : File) : string :=
oror (webkitRelativePath file) (name file).

(** The callback of [files.map] inside [Promise.all]. *)
Definition toFileEntry (file : File) : Settled FileEntry :=
match arrayBuffer file with
| Fulfilled buf => Fulfilled (mkFileEntry (filePath file) buf)
| Rejected e => Rejected e
end.

(** [fileEntries.some((f) => f.path.includes("/"))]. *)
Definition somePathHasSlash (fileEntries : list FileEntry) : bool :=
existsb (fun f => includes (path f) "/") fileEntries.

Definition kuboCompatibleOptions (fileEntries : list FileEntry) : Options :=
{| cidVersion := 1%N;
   rawLeaves := true;
   trickle := false;
   chunkerOptions := {| maxChunkSize := 262144%N |};
   wrapWithDirectory :=
     (1 <? length fileEntries)%nat || somePathHasSlash fileEntries |}.

(** [fileEntries.length === 1 && !fileEntries[0].path.includes("/")]. *)
Definition isSingleFile (fileEntries : list FileEntry) : bool :=
(length fileEntries =? 1)%nat &&
negb match nth_error fileEntries 0 with
     | Some f => includes (path f) "/"
     | None => false
     end.

(** The record pushed for the single file. *)
Definition singleRecord (entry : FileEntry) (cid : Cid) : Result :=
{| result_path := path entry;
   result_cid := cid_toString B cid;
   result_size := N.of_nat (length (content entry));
   result_type := "file" |}.

(** The record pushed for an entry yielded by [addAll]. *)
Definition entryRecord (entry : ImportEntry Cid) : Result :=
{| result_path := entry_path entry;
   result_cid := cid_toString B (entry_cid entry);
   result_size := entry_size entry;
   result_type := orElse (entry_type entry) "file" |}.

(** The [for await] loop: one [importResults.push] per yielded entry. *)
Fixpoint pushAll (yielded : list (ImportEntry Cid)) (importResults : list Result)
  : list Result :=
match yielded with
| [] => importResults
| entry :: rest => pushAll rest (importResults ++ [entryRecord entry])
end.

Definition notReadyMessage : string :=
"Helia is still initializing. Please wait a moment and try again.".

Definition noFilesMessage : string := "Please select files first".

Definition calcErrorPrefix : string := "Error calculating CIDs: ".

(** The [try] block of [calculateCIDs]. *)
Definition tryBlock (files0 : list File) (helia0 : option Store) : M unit :=
match helia0 with
| None => setError notReadyMessage ;;; return_
| Some st =>
    fileEntries <- await (promise_all (map toFileEntry files0)) ;;
    let options := kuboCompatibleOptions fileEntries in
    importResults <-
      (if isSingleFile fileEntries then
         match nth_error fileEntries 0 with
         | Some entry =>
             cid <- fs_addBytes st (content entry) options ;;
             ret ([] ++ [singleRecord entry cid])
         | None => fun w => (w, Throw "TypeError")
         end
       else
         r <- fs_addAll st fileEntries options ;;
         let pushed := pushAll (fst r) [] in
         match snd r with
         | None => ret pushed
         | Some e => fun w => (w, Throw e)
         end) ;;
    setResults importResults
end.

(** [calculateCIDs], closed over the [files] and [heliaInstance] of the
    render it was created in. *)
Definition calculateCIDs : M unit :=
fun w =>
  let files0 := files (app w) in
  let helia0 := heliaInstance (app w) in
  (if (length files0 =? 0)%nat then
     setError noFilesMessage ;;; return_
   else
     setIsProcessing true ;;;
     setError "" ;;;
     setResults [] ;;;
     try_catch_finally
       (tryBlock files0 helia0)
       (fun err => setError (calcErrorPrefix ++ err))
       (setIsProcessing false)) w.

(** The state a call leaves behind, and the effects it performed. *)
Definition runCalculate (s : AppState) : World :=
fst (calculateCIDs (mkWorld s [])).

(** Whether the promise returned by the [async] callback rejects. *)
Definition rejects (s : AppState) : bool :=
match snd (calculateCIDs (mkWorld s [])) with
| Throw _ => true
| _ => false
end.

(** The predicate of [results.find] in the root panel. *)
Definition isRootRecord (r : Result) : bool :=
(result_path r =? "") || (result_type r =? "directory").

(** The "Root Directory CID" panel: rendered when [results.length > 1],
    showing [results.find(...)?.cid || results[results.length - 1]?.cid]. *)
Definition rootCid (rs : list Result) : option string :=
if (1 <? length rs)%nat then
  Some (orElse (option_map result_cid (find isRootRecord rs))
          (match last_opt rs with
           | Some r => result_cid r
           | None => ""
           end))
else None.

End HeliaApp.

Arguments Return {A}.
Arguments Throw {A} e.
Arguments initHelia {Store Cid} B _.
Arguments calculateCIDs {Store Cid} B _.
Arguments handleFileSelection {Store} selectedFiles _.

(** ** The component as a transition system *)

(** The three things that can happen to a mounted component. *)
Inductive Event : Type :=
| Mount
| Select (selectedFiles : list File)
| Click.

Definition initialState (Store : Type) : AppState Store :=
mkAppState [] [] false "" None.

Definition step {Store Cid : Type} (B : Backend Store Cid)
  (s : AppState Store) (ev : Event) : AppState Store :=
match ev with
| Mount => app (fst (initHelia B (mkWorld s [])))
| Select selectedFiles => app (fst (handleFileSelection selectedFiles (mkWorld s [])))
| Click => app (runCalculate B s)
end.

Definition reachable {Store Cid : Type} (B : Backend Store Cid)
  (s : AppState Store) : Prop :=
exists evs : list Event, s = fold_left (step B) evs (initialState Store).

(** The options of the importer calls of a run, in call order. *)
Fixpoint importerOptions (tr : list Effect) : list Options :=
match tr with
| [] => []
| CallAddBytes _ o :: tr' => o :: importerOptions tr'
| CallAddAll _ o :: tr' => o :: importerOptions tr'
| _ :: tr' => importerOptions tr'
end.

(** The arguments of the [setIsProcessing] calls of a run, in order. *)
Fixpoint processingFlags (tr : list Effect) : list bool :=
match tr with
| [] => []
| SetIsProcessing b :: tr' => b :: processingFlags tr'
| _ :: tr' => processingFlags tr'
end.



(** ** What the component renders *)




(** The rows of the "Selected Files" panel, [files.slice(0, 5).map(...)],
    each given by its label [file.webkitRelativePath || file.name]; the
    size figure printed next to the label is left out. *)
Definition selectedRows (fs : list File) : list string :=
map filePath (firstn 5 fs).

(** The line "... and N more files": present when [files.length > 5],
    with [N = files.length - 5]. *)
Definition moreFiles (fs : list File) : option nat :=
if (5 <? length fs)%nat then Some (length fs - 5) else None.

(** The icon in front of a record: [result.type === "directory"] picks
    the folder. *)
Inductive Icon : Type :=
| FolderIcon
| FileTextIcon.

Definition resultIcon (r : Result) : Icon :=
if (result_type r =? "directory")%string then FolderIcon else FileTextIcon.

(** ** Ways a call can go *)

(** The effects every run that starts processing begins with. *)
Definition prologue : list Effect :=
[SetIsProcessing true; SetError ""; SetResults []].

(** The ways a call from [s] can go: the world it leaves and how the
    body of the callback completes. *)
Inductive Outcome {Store Cid : Type} (B : Backend Store Cid) (s : AppState Store)
  : World Store -> Completion unit -> Prop :=
| Out_no_files :
    files s = [] ->
    Outcome B s
      (mkWorld (mkAppState (files s) (results s) (isProcessing s) noFilesMessage
                  (heliaInstance s))
         [SetError noFilesMessage])
      Return
| Out_not_ready :
    files s <> [] -> heliaInstance s = None ->
    Outcome B s
      (mkWorld (mkAppState (files s) [] false notReadyMessage None)
         (prologue ++ [SetError notReadyMessage; SetIsProcessing false]))
      Return
| Out_read_error st e :
    files s <> [] -> heliaInstance s = Some st ->
    promise_all (map toFileEntry (files s)) = Rejected e ->
    Outcome B s
      (mkWorld (mkAppState (files s) [] false (calcErrorPrefix ++ e)%string (Some st))
         (prologue ++ [SetError (calcErrorPrefix ++ e)%string; SetIsProcessing false]))
      (Normal tt)
| Out_single_ok st entry st' cid :
    files s <> [] -> heliaInstance s = Some st ->
    promise_all (map toFileEntry (files s)) = Fulfilled [entry] ->
    includes (path entry) "/" = false ->
    addBytes B st (content entry) (kuboCompatibleOptions [entry]) = (st', Fulfilled cid) ->
    Outcome B s
      (mkWorld (mkAppState (files s) [singleRecord B entry cid] false "" (Some st'))
         (prologue ++ [CallAddBytes (content entry) (kuboCompatibleOptions [entry]);
                       SetResults [singleRecord B entry cid];
                       SetIsProcessing false]))
      (Normal tt)
| Out_single_error st entry st' e :
    files s <> [] -> heliaInstance s = Some st ->
    promise_all (map toFileEntry (files s)) = Fulfilled [entry] ->
    includes (path entry) "/" = false ->
    addBytes B st (content entry) (kuboCompatibleOptions [entry]) = (st', Rejected e) ->
    Outcome B s
      (mkWorld (mkAppState (files s) [] false (calcErrorPrefix ++ e)%string (Some st'))
         (prologue ++ [CallAddBytes (content entry) (kuboCompatibleOptions [entry]);
                       SetError (calcErrorPrefix ++ e)%string;
                       SetIsProcessing false]))
      (Normal tt)
| Out_multi_ok st entries st' ys :
    files s <> [] -> heliaInstance s = Some st ->
    promise_all (map toFileEntry (files s)) = Fulfilled entries ->
    isSingleFile entries = false ->
    addAll B st entries (kuboCompatibleOptions entries) = (st', (ys, None)) ->
    Outcome B s
      (mkWorld (mkAppState (files s) (map (entryRecord B) ys) false "" (Some st'))
         (prologue ++ [CallAddAll entries (kuboCompatibleOptions entries);
                       SetResults (map (entryRecord B) ys);
                       SetIsProcessing false]))
      (Normal tt)
| Out_multi_error st entries st' ys e :
    files s <> [] -> heliaInstance s = Some st ->
    promise_all (map toFileEntry (files s)) = Fulfilled entries ->
    isSingleFile entries = false ->
    addAll B st entries (kuboCompatibleOptions entries) = (st', (ys, Some e)) ->
    Outcome B s
      (mkWorld (mkAppState (files s) [] false (calcErrorPrefix ++ e)%string (Some st'))
         (prologue ++ [CallAddAll entries (kuboCompatibleOptions entries);
                       SetError (calcErrorPrefix ++ e)%string;
                       SetIsProcessing false]))
      (Normal tt).


(** Modelled from the spec: the CID encoder of section 4.5, which lives
    in the Helia importer and not in [src/App.tsx], is a pure function
    ("identical content => identical CID, regardless of when/where
    computed").  For the interface this says that the importer's
    answers do not depend on what its store already holds. *)
Definition storeIndependent {Store Cid : Type} (B : Backend Store Cid) : Prop :=
forall (st1 st2 : Store) (o : Options),
  (forall c, snd (addBytes B st1 c o) = snd (addBytes B st2 c o)) /\
  (forall es, snd (addAll B st1 es o) = snd (addAll B st2 es o)).

(** ** The chunker *)
Module Chunker.

(** Modelled from the spec: the fixed-size chunker of section 4.1, which
    lives in the Helia importer and not in [src/App.tsx] (the component
    only passes it [maxChunkSize]).  A stream is cut into consecutive
    blocks of [size] bytes, the last one possibly shorter; the empty
    stream gives one empty chunk. *)
Equations? cut (size : nat) (data : bytes) : list bytes by wf (length data) lt :=
  cut 0 data := [data];
  cut (S n) data with le_lt_dec (length data) (S n) => {
    | left _ := [data];
    | right _ := firstn (S n) data :: cut (S n) (skipn (S n) data) }.
Proof.
  change (length (skipn (S n) data) < length data).
  rewrite length_skipn. lia.
Qed.

(** Modelled from the spec: the chunks the importer cuts a file into,
    its chunk size being the [maxChunkSize] of the options it is given
    (spec section 6, "chunk size = 262144 bytes"). *)
Definition chunksOf (o : Options) (data : bytes) : list bytes :=
cut (N.to_nat (maxChunkSize (chunkerOptions o))) data.

End Chunker.

(** ** A small importer to run the component on *)
Module Demo.

(** A stand-in importer.  The store counts the import calls made so
    far; a CID is the content it addresses, so equal contents get equal
    CIDs.  [typed] says whether yielded entries carry a [type]
    property; [quota = Some n] makes [addBytes] reject and [addAll]
    throw after having yielded [n] entries. *)

(** The entry yielded for one imported file. *)
Definition fileEntryOf (typed : bool) (f : FileEntry) : ImportEntry bytes :=
{| entry_path := path f;
   entry_cid := content f;
   entry_size := N.of_nat (length (content f));
   entry_type := if typed then Some "file" else None |}.

Definition rootEntryOf (typed : bool) (fs : list FileEntry) : ImportEntry bytes :=
{| entry_path := "";
   entry_cid := Byte.x2f :: concat (map content fs);
   entry_size := N.of_nat (length (concat (map content fs)));
   entry_type := if typed then Some "directory" else None |}.

Definition dirEntryOf (typed : bool) (dir : string) (fs : list FileEntry)
  : ImportEntry bytes :=
{| entry_path := dir;
   entry_cid := concat (map content fs);
   entry_size := N.of_nat (length (concat (map content fs)));
   entry_type := if typed then Some "directory" else None |}.

(** What [addAll] yields for a flat list of files: the files in order,
    then the wrapping root (path [""]) when wrapping is asked for. *)
Definition flat (typed : bool) (fs : list FileEntry) (o : Options)
  : list (ImportEntry bytes) :=
map (fileEntryOf typed) fs ++
(if wrapWithDirectory o then [rootEntryOf typed fs] else []).

(** What [addAll] yields for files that all sit in the directory [dir]:
    the files, then [dir], then the wrapping root. *)
Definition under (dir : string) (typed : bool) (fs : list FileEntry) (o : Options)
  : list (ImportEntry bytes) :=
map (fileEntryOf typed) fs ++ [dirEntryOf typed dir fs] ++
(if wrapWithDirectory o then [rootEntryOf typed fs] else []).

(** An importer whose entries carry an empty [type] string. *)
Definition blank (fs : list FileEntry) (o : Options) : list (ImportEntry bytes) :=
map (fun f => mkImportEntry (path f) (content f)
                (N.of_nat (length (content f))) (Some "")) fs.

Definition backend
  (yields : list FileEntry -> Options -> list (ImportEntry bytes))
  (quota : option nat) : Backend nat bytes :=
{| cid_toString := fun c => ("cid:" ++ string_of_list_byte c)%string;
   createHelia := Fulfilled 0;
   addBytes := fun st c _ =>
     (S st, match quota with
            | Some _ => Rejected "Error: quota exceeded"
            | None => Fulfilled c
            end);
   addAll := fun st fs o =>
     (S st, match quota with
            | Some n => (firstn n (yields fs o), Some "Error: quota exceeded")
            | None => (yields fs o, None)
            end) |}.

Definition hello : bytes := [Byte.x68; Byte.x69].

Definition aTxt : File := mkFile "" "a.txt" (Fulfilled hello).
Definition bTxt : File := mkFile "" "b.txt" (Fulfilled [Byte.x21]).
Definition nested : File := mkFile "dir/a.txt" "a.txt" (Fulfilled hello).
Definition nestedB : File := mkFile "dir/b.txt" "b.txt" (Fulfilled [Byte.x21]).
Definition unreadable : File := mkFile "" "gone.txt" (Rejected "NotFoundError").

Definition ready (fs : list File) : AppState nat :=
mkAppState fs [] false "" (Some 0).

Definition notReady (fs : list File) : AppState nat :=
mkAppState fs [] false "" None.

(** The same importer on a node that cannot be created. *)
Definition broken : Backend nat bytes :=
{| cid_toString := cid_toString (backend (flat true) None);
   createHelia := Rejected "Error: no storage";
   addBytes := addBytes (backend (flat true) None);
   addAll := addAll (backend (flat true) None) |}.

End Demo.

(** * Properties *)

Unset Implicit Arguments.

(** ** Strings *)

Lemma truthy_spec (s : string) : truthy s = true <-> s <> "".
Proof.
  unfold truthy. destruct (String.eqb_spec s ""); simpl; split; congruence.
Qed.

Lemma includes_char (c : ascii) (s : string) :
  includes s (String c "") = true <-> In c (list_ascii_of_string s).
Proof.
  induction s as [|a s IH]; simpl.
  - split; [discriminate | tauto].
  - destruct (Ascii.ascii_dec c a) as [->|Hne].
    + destruct s; simpl; split; auto.
    + rewrite IH. split; [tauto|]. intros [Heq|Hin]; [congruence|assumption].
Qed.

Lemma list_eq_dec_nil {A : Type} (l : list A) : {l = []} + {l <> []}.
Proof. destruct l; [left; reflexivity | right; discriminate]. Qed.

(** ** Running [calculateCIDs] *)
Section Run.

Variables Store Cid : Type.
Variable B : Backend Store Cid.

Implicit Types (s : AppState Store) (st : Store).

Lemma pushAll_spec (ys : list (ImportEntry Cid)) (acc : list Result) :
  pushAll B ys acc = acc ++ map (entryRecord B) ys.
Proof.
  revert acc. induction ys as [|y ys IH]; intros acc; simpl.
  - now rewrite app_nil_r.
  - rewrite IH, <- app_assoc. reflexivity.
Qed.

Lemma files_nonempty_length s : files s <> [] -> (length (files s) =? 0)%nat = false.
Proof. destruct (files s); [congruence | reflexivity]. Qed.

Lemma run_no_files s :
  files s = [] ->
  calculateCIDs B (mkWorld s []) =
  (mkWorld (mkAppState (files s) (results s) (isProcessing s) noFilesMessage
              (heliaInstance s))
     [SetError noFilesMessage], Return).
Proof.
  intros H. unfold calculateCIDs. cbn [app].
  replace (length (files s) =? 0)%nat with true by now rewrite H.
  reflexivity.
Qed.

(** Past the guard, a call is its [try] statement run after the three
    resetting setters. *)
Lemma run_started s :
  files s <> [] ->
  calculateCIDs B (mkWorld s []) =
  try_catch_finally
    (tryBlock B (files s) (heliaInstance s))
    (fun err => setError (calcErrorPrefix ++ err))
    (setIsProcessing false)
    (mkWorld (mkAppState (files s) [] true "" (heliaInstance s)) prologue).
Proof.
  intros Hf. unfold calculateCIDs. cbn [app].
  rewrite (files_nonempty_length s Hf). reflexivity.
Qed.

Lemma run_not_ready s :
  files s <> [] -> heliaInstance s = None ->
  calculateCIDs B (mkWorld s []) =
  (mkWorld (mkAppState (files s) [] false notReadyMessage None)
     (prologue ++ [SetError notReadyMessage; SetIsProcessing false]), Return).
Proof.
  intros Hf Hh. rewrite (run_started s Hf), Hh. reflexivity.
Qed.

Lemma run_read_error s st e :
  files s <> [] -> heliaInstance s = Some st ->
  promise_all (map toFileEntry (files s)) = Rejected e ->
  calculateCIDs B (mkWorld s []) =
  (mkWorld (mkAppState (files s) [] false (calcErrorPrefix ++ e)%string (Some st))
     (prologue ++ [SetError (calcErrorPrefix ++ e)%string; SetIsProcessing false]),
   Normal tt).
Proof.
  intros Hf Hh Hr. rewrite (run_started s Hf), Hh.
  unfold try_catch_finally, tryBlock, bind, await. rewrite Hr. reflexivity.
Qed.

Lemma run_single_ok s st entry st' cid :
  files s <> [] -> heliaInstance s = Some st ->
  promise_all (map toFileEntry (files s)) = Fulfilled [entry] ->
  includes (path entry) "/" = false ->
  addBytes B st (content entry) (kuboCompatibleOptions [entry]) = (st', Fulfilled cid) ->
  calculateCIDs B (mkWorld s []) =
  (mkWorld (mkAppState (files s) [singleRecord B entry cid] false "" (Some st'))
     (prologue ++ [CallAddBytes (content entry) (kuboCompatibleOptions [entry]);
                   SetResults [singleRecord B entry cid];
                   SetIsProcessing false]),
   Normal tt).
Proof.
  intros Hf Hh Hr Hp Ha. rewrite (run_started s Hf), Hh.
  unfold try_catch_finally, tryBlock, bind, await. rewrite Hr.
  unfold isSingleFile. cbn [length Nat.eqb nth_error andb]. rewrite Hp.
  cbn [negb]. unfold fs_addBytes. rewrite Ha. reflexivity.
Qed.

Lemma run_single_error s st entry st' e :
  files s <> [] -> heliaInstance s = Some st ->
  promise_all (map toFileEntry (files s)) = Fulfilled [entry] ->
  includes (path entry) "/" = false ->
  addBytes B st (content entry) (kuboCompatibleOptions [entry]) = (st', Rejected e) ->
  calculateCIDs B (mkWorld s []) =
  (mkWorld (mkAppState (files s) [] false (calcErrorPrefix ++ e)%string (Some st'))
     (prologue ++ [CallAddBytes (content entry) (kuboCompatibleOptions [entry]);
                   SetError (calcErrorPrefix ++ e)%string;
                   SetIsProcessing false]),
   Normal tt).
Proof.
  intros Hf Hh Hr Hp Ha. rewrite (run_started s Hf), Hh.
  unfold try_catch_finally, tryBlock, bind, await. rewrite Hr.
  unfold isSingleFile. cbn [length Nat.eqb nth_error andb]. rewrite Hp.
  cbn [negb]. unfold fs_addBytes. rewrite Ha. reflexivity.
Qed.

Lemma run_multi_ok s st entries st' ys :
  files s <> [] -> heliaInstance s = Some st ->
  promise_all (map toFileEntry (files s)) = Fulfilled entries ->
  isSingleFile entries = false ->
  addAll B st entries (kuboCompatibleOptions entries) = (st', (ys, None)) ->
  calculateCIDs B (mkWorld s []) =
  (mkWorld (mkAppState (files s) (map (entryRecord B) ys) false "" (Some st'))
     (prologue ++ [CallAddAll entries (kuboCompatibleOptions entries);
                   SetResults (map (entryRecord B) ys);
                   SetIsProcessing false]),
   Normal tt).
Proof.
  intros Hf Hh Hr Hm Ha. rewrite (run_started s Hf), Hh.
  unfold try_catch_finally, tryBlock, bind, await. rewrite Hr, Hm.
  unfold fs_addAll. rewrite Ha. cbn [snd fst]. unfold ret.
  rewrite pushAll_spec. reflexivity.
Qed.

Lemma run_multi_error s st entries st' ys e :
  files s <> [] -> heliaInstance s = Some st ->
  promise_all (map toFileEntry (files s)) = Fulfilled entries ->
  isSingleFile entries = false ->
  addAll B st entries (kuboCompatibleOptions entries) = (st', (ys, Some e)) ->
  calculateCIDs B (mkWorld s []) =
  (mkWorld (mkAppState (files s) [] false (calcErrorPrefix ++ e)%string (Some st'))
     (prologue ++ [CallAddAll entries (kuboCompatibleOptions entries);
                   SetError (calcErrorPrefix ++ e)%string;
                   SetIsProcessing false]),
   Normal tt).
Proof.
  intros Hf Hh Hr Hm Ha. rewrite (run_started s Hf), Hh.
  unfold try_catch_finally, tryBlock, bind, await. rewrite Hr, Hm.
  unfold fs_addAll. rewrite Ha. reflexivity.
Qed.

(** *** Reading the files *)

Lemma promise_all_fulfilled (fs : list File) (es : list FileEntry) :
  promise_all (map toFileEntry fs) = Fulfilled es ->
  length es = length fs /\
  map path es = map filePath fs /\
  map (fun e => Fulfilled (content e)) es = map arrayBuffer fs.
Proof.
  revert es. induction fs as [|f fs IH]; intros es; simpl.
  - intros [= <-]. auto.
  - unfold toFileEntry at 1. destruct (arrayBuffer f) as [buf|e] eqn:Hb; [|discriminate].
    destruct (promise_all (map toFileEntry fs)) as [l|e]; [|discriminate].
    intros [= <-]. destruct (IH l eq_refl) as (Hl & Hp & Hc).
    simpl. rewrite Hl, Hp, Hc. auto.
Qed.

Lemma promise_all_rejected (fs : list File) (e : Error) :
  promise_all (map toFileEntry fs) = Rejected e ->
  exists f, In f fs /\ arrayBuffer f = Rejected e.
Proof.
  induction fs as [|f fs IH]; simpl; [discriminate|].
  unfold toFileEntry at 1. destruct (arrayBuffer f) as [buf|e'] eqn:Hb.
  - destruct (promise_all (map toFileEntry fs)) as [l|e'']; [discriminate|].
    intros [= ->]. destruct (IH eq_refl) as (g & Hg & Hr). eauto.
  - intros [= ->]. eauto.
Qed.

(** *** The two branches *)

Lemma isSingleFile_true (es : list FileEntry) :
  isSingleFile es = true <->
  exists entry, es = [entry] /\ includes (path entry) "/" = false.
Proof.
  unfold isSingleFile. split.
  - destruct es as [|e [|e' es]]; simpl; try discriminate.
    intros H. exists e. split; [reflexivity|].
    now destruct (includes (path e) "/").
  - intros (e & -> & H). simpl. now rewrite H.
Qed.

Lemma somePathHasSlash_spec (es : list FileEntry) :
  somePathHasSlash es = true <->
  exists e, In e es /\ In "/"%char (list_ascii_of_string (path e)).
Proof.
  unfold somePathHasSlash. rewrite existsb_exists.
  split; intros (e & He & H); exists e; split; auto; now apply includes_char.
Qed.

Lemma wrapWithDirectory_spec (es : list FileEntry) :
  wrapWithDirectory (kuboCompatibleOptions es) = true <->
  1 < length es \/
  exists e, In e es /\ In "/"%char (list_ascii_of_string (path e)).
Proof.
  cbn [kuboCompatibleOptions wrapWithDirectory].
  rewrite orb_true_iff, Nat.ltb_lt, somePathHasSlash_spec. reflexivity.
Qed.

Lemma wrapWithDirectory_branch (es : list FileEntry) :
  es <> [] ->
  wrapWithDirectory (kuboCompatibleOptions es) = negb (isSingleFile es).
Proof.
  intros Hne. cbn [kuboCompatibleOptions wrapWithDirectory].
  unfold isSingleFile, somePathHasSlash.
  destruct es as [|e [|e' es]]; [congruence| |reflexivity].
  simpl. now rewrite orb_false_r, negb_involutive.
Qed.

(** *** Every way a call can go *)

Lemma run_outcome s :
  exists w c, calculateCIDs B (mkWorld s []) = (w, c) /\ Outcome B s w c.
Proof.
  destruct (list_eq_dec_nil (files s)) as [Hf|Hf].
  { eexists _, _. split; [apply run_no_files; assumption | now constructor]. }
  destruct (heliaInstance s) as [st|] eqn:Hh.
  2:{ eexists _, _. split; [apply run_not_ready; assumption | now constructor]. }
  destruct (promise_all (map toFileEntry (files s))) as [es|e] eqn:Hr.
  2:{ eexists _, _. split; [eapply run_read_error; eassumption | now constructor]. }
  destruct (isSingleFile es) eqn:Hs.
  - apply isSingleFile_true in Hs. destruct Hs as (entry & -> & Hp).
    destruct (addBytes B st (content entry) (kuboCompatibleOptions [entry]))
      as [st' [cid|e]] eqn:Ha.
    + eexists _, _. split; [eapply run_single_ok | eapply Out_single_ok]; eassumption.
    + eexists _, _. split; [eapply run_single_error | eapply Out_single_error]; eassumption.
  - destruct (addAll B st es (kuboCompatibleOptions es)) as [st' [ys [e|]]] eqn:Ha.
    + eexists _, _. split; [eapply run_multi_error | eapply Out_multi_error]; eassumption.
    + eexists _, _. split; [eapply run_multi_ok | eapply Out_multi_ok]; eassumption.
Qed.

End Run.

Arguments run_outcome {Store Cid} B s.
Arguments run_no_files {Store Cid} B s _.
Arguments run_started {Store Cid} B s _.
Arguments run_not_ready {Store Cid} B s _ _.
Arguments pushAll_spec {Store Cid} B ys acc.

(** Case analysis on the way the call from [s] goes. *)
Ltac run_cases B s :=
  let w := fresh "w" in
  let c := fresh "c" in
  let Heq := fresh "Heq" in
  let Ho := fresh "Ho" in
  destruct (run_outcome B s) as (w & c & Heq & Ho);
  unfold runCalculate, rejects; rewrite Heq; cbn [fst snd];
  destruct Ho; cbn [app trace files results isProcessing error heliaInstance].

Lemma entries_some_path (P : string -> Prop) (fs : list File) (es : list FileEntry) :
  map path es = map filePath fs ->
  (exists e, In e es /\ P (path e)) <-> (exists f, In f fs /\ P (filePath f)).
Proof.
  intros Hm. split.
  - intros (e & He & HP). apply (in_map path) in He. rewrite Hm in He.
    apply in_map_iff in He. destruct He as (f & Hf & Hin).
    exists f. split; [assumption | now rewrite Hf].
  - intros (f & Hf & HP). apply (in_map filePath) in Hf. rewrite <- Hm in Hf.
    apply in_map_iff in Hf. destruct Hf as (e & He & Hin).
    exists e. split; [assumption | now rewrite He].
Qed.

(** The options of a run's importer call, as a function of the files. *)
Lemma wrap_of_files (fs : list File) (es : list FileEntry) :
  promise_all (map toFileEntry fs) = Fulfilled es ->
  wrapWithDirectory (kuboCompatibleOptions es) = true <->
  1 < length fs \/
  exists f, In f fs /\ In "/"%char (list_ascii_of_string (filePath f)).
Proof.
  intros Hr. destruct (promise_all_fulfilled _ _ Hr) as (Hl & Hp & _).
  rewrite wrapWithDirectory_spec, Hl.
  rewrite (entries_some_path (fun p => In "/"%char (list_ascii_of_string p)) _ _ Hp).
  reflexivity.
Qed.

(** ** C1: when directory wrapping is enabled *)

(** C1. Whatever importer call a run makes, the [wrapWithDirectory]
    option it passes is true exactly when more than one file was
    selected or the path of some selected file contains ['/']. *)
Theorem wrapWithDirectory_iff {Store Cid : Type} (B : Backend Store Cid)
    (s : AppState Store) (o : Options) :
  In o (importerOptions (trace (runCalculate B s))) ->
  (wrapWithDirectory o = true <->
   1 < length (files s) \/
   exists f, In f (files s) /\ In "/"%char (list_ascii_of_string (filePath f))).
Proof.
  run_cases B s; cbn [importerOptions prologue app];
    try (intros []; fail).
  - intros [<-|[]]. now apply wrap_of_files.
  - intros [<-|[]]. now apply wrap_of_files.
  - intros [<-|[]]. now apply wrap_of_files.
  - intros [<-|[]]. now apply wrap_of_files.
Qed.

Lemma wrapWithDirectory_iff_witness :
  In (kuboCompatibleOptions
        [mkFileEntry "dir/a.txt" Demo.hello])
     (importerOptions
        (trace (runCalculate (Demo.backend (Demo.flat true) None)
                  (Demo.ready [Demo.nested])))) /\
  (wrapWithDirectory (kuboCompatibleOptions [mkFileEntry "dir/a.txt" Demo.hello]) = true <->
   1 < length (files (Demo.ready [Demo.nested])) \/
   exists f, In f (files (Demo.ready [Demo.nested])) /\
             In "/"%char (list_ascii_of_string (filePath f))).
Proof.
  assert (H : In (kuboCompatibleOptions [mkFileEntry "dir/a.txt" Demo.hello])
                (importerOptions
                   (trace (runCalculate (Demo.backend (Demo.flat true) None)
                             (Demo.ready [Demo.nested]))))).
  { left. reflexivity. }
  split; [exact H|].
  exact (wrapWithDirectory_iff (Demo.backend (Demo.flat true) None)
           (Demo.ready [Demo.nested]) _ H).
Defined.

(** ** C10: the processing flag *)

(** C10. A call that gets past the empty-selection guard raises the
    processing flag once and lowers it once, in that order, and leaves
    it lowered: on success, on any thrown error, and on the not-ready
    early return alike.  The call's own promise never rejects. *)
Theorem isProcessing_reset {Store Cid : Type} (B : Backend Store Cid)
    (s : AppState Store) :
  files s <> [] ->
  isProcessing (app (runCalculate B s)) = false /\
  processingFlags (trace (runCalculate B s)) = [true; false] /\
  last (trace (runCalculate B s)) (SetError "") = SetIsProcessing false /\
  rejects B s = false.
Proof.
  intros Hf. unfold rejects, runCalculate.
  destruct (run_outcome B s) as (w & c & Heq & Ho). rewrite Heq.
  destruct Ho; try contradiction; cbn; auto.
Qed.

Lemma isProcessing_reset_witness :
  Demo.unreadable :: nil <> [] /\
  isProcessing
    (app (runCalculate (Demo.backend (Demo.flat true) None)
            (Demo.ready [Demo.unreadable]))) = false.
Proof.
  split; [discriminate|].
  apply (isProcessing_reset (Demo.backend (Demo.flat true) None)
           (Demo.ready [Demo.unreadable])).
  discriminate.
Defined.

(** ** C6: an empty selection *)

Lemma run_keeps_files {Store Cid : Type} (B : Backend Store Cid) (s : AppState Store) :
  files (app (runCalculate B s)) = files s.
Proof. run_cases B s; reflexivity. Qed.

Lemma initHelia_keeps {Store Cid : Type} (B : Backend Store Cid) (s : AppState Store) :
  files (app (fst (initHelia B (mkWorld s [])))) = files s /\
  results (app (fst (initHelia B (mkWorld s [])))) = results s.
Proof.
  unfold initHelia, try_catch_finally, bind, await.
  destruct (createHelia B); cbn; auto.
Qed.

(** In every state the component can be in, an empty selection comes
    with an empty result list. *)
Lemma reachable_no_files_no_results {Store Cid : Type} (B : Backend Store Cid)
    (s : AppState Store) :
  reachable B s -> files s = [] -> results s = [].
Proof.
  intros [evs ->]. induction evs as [|ev evs IH] using rev_ind.
  - reflexivity.
  - rewrite fold_left_app. cbn [fold_left].
    set (s0 := fold_left (step B) evs (initialState Store)) in *.
    destruct ev; cbn [step].
    + destruct (initHelia_keeps B s0) as [-> ->]. exact IH.
    + reflexivity.
    + rewrite run_keeps_files. intros Hf. specialize (IH Hf).
      unfold runCalculate. rewrite (run_no_files B s0 Hf). exact IH.
Qed.

(** C6. With no file selected, a call does one thing: it reports the
    input error.  No setter for the results or the processing flag is
    called, the importer is not called, the state is otherwise
    untouched, and - in any state the component can reach - the result
    list it leaves is empty. *)
Theorem no_files_input_error {Store Cid : Type} (B : Backend Store Cid)
    (s : AppState Store) :
  files s = [] ->
  trace (runCalculate B s) = [SetError noFilesMessage] /\
  app (runCalculate B s) =
    mkAppState (files s) (results s) (isProcessing s) noFilesMessage (heliaInstance s) /\
  rejects B s = false /\
  (reachable B s -> results (app (runCalculate B s)) = []).
Proof.
  intros Hf. unfold runCalculate, rejects. rewrite (run_no_files B s Hf). cbn.
  repeat split. intros Hr. now apply (reachable_no_files_no_results B).
Qed.

Lemma no_files_input_error_witness :
  files (Demo.notReady []) = [] /\
  trace (runCalculate (Demo.backend (Demo.flat true) None) (Demo.notReady [])) =
    [SetError noFilesMessage].
Proof.
  split; [reflexivity|].
  apply (no_files_input_error (Demo.backend (Demo.flat true) None) (Demo.notReady [])).
  reflexivity.
Defined.

(** ** C5: the importer is not ready *)

Lemma run_depends_on_files_and_instance {Store Cid : Type} (B : Backend Store Cid)
    (s1 s2 : AppState Store) :
  files s1 = files s2 -> files s1 <> [] -> heliaInstance s1 = heliaInstance s2 ->
  runCalculate B s1 = runCalculate B s2.
Proof.
  intros Hf Hne Hh. unfold runCalculate.
  rewrite (run_started B s1 Hne).
  rewrite (run_started B s2) by (rewrite <- Hf; exact Hne).
  now rewrite Hf, Hh.
Qed.

Lemma notReadyMessage_distinct :
  notReadyMessage <> noFilesMessage /\
  (forall e, notReadyMessage <> (calcErrorPrefix ++ e)%string) /\
  (forall e, notReadyMessage <> ("Failed to initialize Helia: " ++ e)%string).
Proof. repeat split; intros; discriminate. Qed.

(** C5. A call made while [heliaInstance] is still [null] returns at
    once: it reports the not-ready message (different from every other
    message the component can report), publishes no record, never calls
    the importer and leaves the processing flag lowered.  Nothing is
    retried by the call itself; once the instance is set, a new call
    behaves exactly as a first one would. *)
Theorem not_ready_error {Store Cid : Type} (B : Backend Store Cid)
    (s : AppState Store) :
  files s <> [] -> heliaInstance s = None ->
  app (runCalculate B s) = mkAppState (files s) [] false notReadyMessage None /\
  trace (runCalculate B s) =
    [SetIsProcessing true; SetError ""; SetResults [];
     SetError notReadyMessage; SetIsProcessing false] /\
  importerOptions (trace (runCalculate B s)) = [] /\
  rejects B s = false /\
  (notReadyMessage <> noFilesMessage /\
   (forall e, notReadyMessage <> (calcErrorPrefix ++ e)%string) /\
   (forall e, notReadyMessage <> ("Failed to initialize Helia: " ++ e)%string)) /\
  (forall st,
     runCalculate B (putStore st (app (runCalculate B s))) =
     runCalculate B (putStore st s)).
Proof.
  intros Hf Hh. unfold runCalculate at 1 2 3, rejects.
  rewrite (run_not_ready B s Hf Hh). cbn.
  repeat split; try (intros; discriminate).
  intros st. apply run_depends_on_files_and_instance; cbn.
  - now rewrite run_keeps_files.
  - now rewrite run_keeps_files.
  - reflexivity.
Qed.

Lemma not_ready_error_witness :
  files (Demo.notReady [Demo.aTxt]) <> [] /\
  heliaInstance (Demo.notReady [Demo.aTxt]) = None /\
  app (runCalculate (Demo.backend (Demo.flat true) None) (Demo.notReady [Demo.aTxt])) =
    mkAppState [Demo.aTxt] [] false notReadyMessage None.
Proof.
  split; [discriminate|]. split; [reflexivity|].
  apply (not_ready_error (Demo.backend (Demo.flat true) None)
           (Demo.notReady [Demo.aTxt])); [discriminate | reflexivity].
Defined.

(** ** C3: a single top-level file *)



Lemma read_one_file (file : File) (es : list FileEntry) :
  promise_all (map toFileEntry [file]) = Fulfilled es ->
  exists buf, arrayBuffer file = Fulfilled buf /\ es = [mkFileEntry (filePath file) buf].
Proof.
  cbn. unfold toFileEntry. destruct (arrayBuffer file) as [buf|e]; [|discriminate].
  intros [= <-]. eauto.
Qed.





(** ** C4: all or nothing *)




(** ** C2: the multi-entry output and the root panel *)

Lemma find_first {A : Type} (f : A -> bool) (pre post : list A) (x : A) :
  (forall y, In y pre -> f y = false) -> f x = true ->
  find f (pre ++ x :: post) = Some x.
Proof.
  intros Hpre Hx. induction pre as [|y pre IH]; cbn.
  - now rewrite Hx.
  - rewrite (Hpre y (or_introl eq_refl)). apply IH.
    intros z Hz. apply Hpre. now right.
Qed.

Lemma find_none_all {A : Type} (f : A -> bool) (l : list A) :
  (forall y, In y l -> f y = false) -> find f l = None.
Proof.
  intros H. destruct (find f l) as [x|] eqn:E; [|reflexivity].
  apply find_some in E. destruct E as [Hin Hx]. rewrite (H x Hin) in Hx. discriminate.
Qed.

Lemma last_opt_snoc {A : Type} (l : list A) (x : A) : last_opt (l ++ [x]) = Some x.
Proof.
  unfold last_opt. rewrite length_app. cbn [length].
  replace (length l + 1 - 1) with (length l) by lia.
  rewrite nth_error_app2 by lia. now rewrite Nat.sub_diag.
Qed.

(** What the root panel shows, for any published list. *)
Lemma rootCid_spec (rs : list Result) :
  (rootCid rs = None <-> length rs <= 1) /\
  (1 < length rs ->
   forall pre r post,
     rs = pre ++ r :: post ->
     (forall r', In r' pre -> isRootRecord r' = false) ->
     isRootRecord r = true ->
     result_cid r <> "" ->
     rootCid rs = Some (result_cid r)) /\
  (1 < length rs ->
   (forall r, In r rs -> isRootRecord r = false) ->
   forall pre r, rs = pre ++ [r] -> rootCid rs = Some (result_cid r)).
Proof.
  unfold rootCid. split; [|split].
  - destruct (Nat.ltb_spec 1 (length rs)); split; intros;
      try discriminate; try reflexivity; lia.
  - intros Hl pre r post -> Hpre Hr Hc.
    apply Nat.ltb_lt in Hl. rewrite Hl, find_first by assumption.
    cbn [option_map orElse]. unfold oror.
    now rewrite (proj2 (truthy_spec _) Hc).
  - intros Hl Hall pre r ->.
    apply Nat.ltb_lt in Hl. rewrite Hl, find_none_all by assumption.
    now rewrite last_opt_snoc.
Qed.

Lemma multi_mode (fs : list File) (es : list FileEntry) :
  (1 < length fs \/
   exists f, In f fs /\ In "/"%char (list_ascii_of_string (filePath f))) ->
  promise_all (map toFileEntry fs) = Fulfilled es ->
  fs <> [] /\ isSingleFile es = false.
Proof.
  intros Hm Hr. split.
  - intros ->. destruct Hm as [H|(f & [] & _)]. cbn in H. lia.
  - apply (wrap_of_files fs es Hr) in Hm.
    rewrite wrapWithDirectory_branch in Hm.
    + now destruct (isSingleFile es).
    + intros ->. discriminate.
Qed.

(** C2, as the code has it.  In a run over more than one file, or over
    a file with a nested path, that reads every file and whose
    [addAll] generator ends normally, the published list is the
    yielded entries converted one by one, in yield order.  The root
    panel is shown exactly when more than one record was published; it
    shows the CID of the first record whose path is empty or whose kind
    is ["directory"] (if that CID is not the empty string), and the
    CID of the last record when no record is of that sort. *)
Theorem multi_entry_output {Store Cid : Type} (B : Backend Store Cid)
    (s : AppState Store) (st st' : Store) (entries : list FileEntry)
    (ys : list (ImportEntry Cid)) :
  (1 < length (files s) \/
   exists f, In f (files s) /\ In "/"%char (list_ascii_of_string (filePath f))) ->
  heliaInstance s = Some st ->
  promise_all (map toFileEntry (files s)) = Fulfilled entries ->
  addAll B st entries (kuboCompatibleOptions entries) = (st', (ys, None)) ->
  results (app (runCalculate B s)) = map (entryRecord B) ys /\
  (forall i, nth_error (results (app (runCalculate B s))) i =
             option_map (entryRecord B) (nth_error ys i)) /\
  (rootCid (results (app (runCalculate B s))) = None <-> length ys <= 1) /\
  (1 < length ys ->
   forall pre r post,
     results (app (runCalculate B s)) = pre ++ r :: post ->
     (forall r', In r' pre -> isRootRecord r' = false) ->
     isRootRecord r = true ->
     result_cid r <> "" ->
     rootCid (results (app (runCalculate B s))) = Some (result_cid r)) /\
  (1 < length ys ->
   (forall r, In r (results (app (runCalculate B s))) -> isRootRecord r = false) ->
   forall pre r, results (app (runCalculate B s)) = pre ++ [r] ->
     rootCid (results (app (runCalculate B s))) = Some (result_cid r)).
Proof.
  intros Hm Hh Hr Ha. destruct (multi_mode _ _ Hm Hr) as [Hf Hs].
  unfold runCalculate.
  rewrite (run_multi_ok _ _ B s st entries st' ys Hf Hh Hr Hs Ha). cbn [fst app results].
  destruct (rootCid_spec (map (entryRecord B) ys)) as (H1 & H2 & H3).
  rewrite length_map in H1, H2, H3.
  repeat split; try apply H1; auto.
  intros i. apply nth_error_map.
Qed.

Lemma multi_entry_output_witness :
  (1 < length (files (Demo.ready [Demo.aTxt; Demo.bTxt])) \/
   exists f, In f (files (Demo.ready [Demo.aTxt; Demo.bTxt])) /\
             In "/"%char (list_ascii_of_string (filePath f))) /\
  results (app (runCalculate (Demo.backend (Demo.flat true) None)
                  (Demo.ready [Demo.aTxt; Demo.bTxt]))) =
  [mkResult "a.txt" "cid:hi" 2 "file";
   mkResult "b.txt" "cid:!" 1 "file";
   mkResult "" "cid:/hi!" 3 "directory"].
Proof.
  assert (Hm : 1 < length (files (Demo.ready [Demo.aTxt; Demo.bTxt])) \/
               exists f, In f (files (Demo.ready [Demo.aTxt; Demo.bTxt])) /\
                         In "/"%char (list_ascii_of_string (filePath f))).
  { left. cbn. apply le_n. }
  split; [exact Hm|].
  destruct (multi_entry_output (Demo.backend (Demo.flat true) None)
              (Demo.ready [Demo.aTxt; Demo.bTxt]) 0 1
              _ _ Hm eq_refl eq_refl eq_refl) as (H & _).
  exact H.
Defined.

(** C2, as stated, fails.  Two files [dir/a.txt] and [dir/b.txt] go to
    an importer that, like the UnixFS importer, yields entries without
    a [type] property: the two files, the directory [dir], and the
    wrapping root with the empty path.  No published record has kind
    ["directory"], so the list does not end in a root record of that
    kind; and the root panel shows the CID of the wrapping root, not
    that of [dir], the deepest directory above both files. *)
Lemma multi_entry_root_counterexample :
  1 < length (files (Demo.ready [Demo.nested; Demo.nestedB])) /\
  results (app (runCalculate (Demo.backend (Demo.under "dir" false) None)
                  (Demo.ready [Demo.nested; Demo.nestedB]))) =
    [mkResult "dir/a.txt" "cid:hi" 2 "file";
     mkResult "dir/b.txt" "cid:!" 1 "file";
     mkResult "dir" "cid:hi!" 3 "file";
     mkResult "" "cid:/hi!" 3 "file"] /\
  ~ (exists pre root,
       results (app (runCalculate (Demo.backend (Demo.under "dir" false) None)
                       (Demo.ready [Demo.nested; Demo.nestedB]))) = pre ++ [root] /\
       result_type root = "directory") /\
  rootCid (results (app (runCalculate (Demo.backend (Demo.under "dir" false) None)
                          (Demo.ready [Demo.nested; Demo.nestedB])))) =
    Some "cid:/hi!" /\
  rootCid (results (app (runCalculate (Demo.backend (Demo.under "dir" false) None)
                          (Demo.ready [Demo.nested; Demo.nestedB])))) <>
    Some "cid:hi!".
Proof.
  split; [cbn; lia|]. split; [reflexivity|]. split; [|split].
  - intros (pre & root & Heq & Hty).
    assert (Hin : In root (pre ++ [root])) by (apply in_or_app; right; now left).
    rewrite <- Heq in Hin. cbn in Hin.
    repeat (destruct Hin as [<-|Hin]; [discriminate Hty|]). exact Hin.
  - reflexivity.
  - discriminate.
Qed.

(** ** C9: the kind of a record in the multi-entry branch *)

Lemma entryRecord_kind {Store Cid : Type} (B : Backend Store Cid)
    (e : ImportEntry Cid) :
  result_type (entryRecord B e) =
  match entry_type e with
  | Some t => if (t =? "")%string then "file" else t
  | None => "file"
  end.
Proof.
  cbn. unfold orElse, oror, truthy.
  destruct (entry_type e) as [t|]; [|reflexivity].
  now destruct (t =? "")%string.
Qed.

(** C9, as the code has it.  In the multi-entry branch the record at
    each position is made from the entry yielded at that position; its
    kind is the entry's [type] when the entry has one and it is not the
    empty string, and ["file"] otherwise.  In particular an entry
    without a [type] property gives a record of kind ["file"], whatever
    node the entry stands for. *)
Theorem record_kind_default {Store Cid : Type} (B : Backend Store Cid)
    (s : AppState Store) (st st' : Store) (entries : list FileEntry)
    (ys : list (ImportEntry Cid)) :
  files s <> [] ->
  heliaInstance s = Some st ->
  promise_all (map toFileEntry (files s)) = Fulfilled entries ->
  isSingleFile entries = false ->
  addAll B st entries (kuboCompatibleOptions entries) = (st', (ys, None)) ->
  length (results (app (runCalculate B s))) = length ys /\
  (forall i e, nth_error ys i = Some e ->
     exists r, nth_error (results (app (runCalculate B s))) i = Some r /\
       result_type r =
         match entry_type e with
         | Some t => if (t =? "")%string then "file" else t
         | None => "file"
         end) /\
  (forall i e, nth_error ys i = Some e -> entry_type e = None ->
     exists r, nth_error (results (app (runCalculate B s))) i = Some r /\
       result_type r = "file").
Proof.
  intros Hf Hh Hr Hs Ha. unfold runCalculate.
  rewrite (run_multi_ok _ _ B s st entries st' ys Hf Hh Hr Hs Ha). cbn [fst app results].
  split; [apply length_map|]. split.
  - intros i e Hi. exists (entryRecord B e). split.
    + rewrite nth_error_map, Hi. reflexivity.
    + apply entryRecord_kind.
  - intros i e Hi Ht. exists (entryRecord B e). split.
    + rewrite nth_error_map, Hi. reflexivity.
    + rewrite entryRecord_kind, Ht. reflexivity.
Qed.

Lemma record_kind_default_witness :
  files (Demo.ready [Demo.aTxt; Demo.bTxt]) <> [] /\
  length (results (app (runCalculate (Demo.backend (Demo.flat false) None)
                          (Demo.ready [Demo.aTxt; Demo.bTxt])))) = 3.
Proof.
  assert (Hf : files (Demo.ready [Demo.aTxt; Demo.bTxt]) <> []) by discriminate.
  split; [exact Hf|].
  destruct (record_kind_default (Demo.backend (Demo.flat false) None)
              (Demo.ready [Demo.aTxt; Demo.bTxt]) 0 1 _ _
              Hf eq_refl eq_refl eq_refl eq_refl) as (H & _).
  exact H.
Defined.

(** C9, as stated, fails on an entry whose [type] is present but is the
    empty string: the record's kind is ["file"], not the entry's
    [type]. *)
Lemma record_kind_counterexample :
  fst (snd (addAll (Demo.backend Demo.blank None) 0
              [mkFileEntry "a.txt" Demo.hello; mkFileEntry "b.txt" [Byte.x21]]
              (kuboCompatibleOptions
                 [mkFileEntry "a.txt" Demo.hello; mkFileEntry "b.txt" [Byte.x21]]))) =
    [mkImportEntry "a.txt" Demo.hello 2 (Some "");
     mkImportEntry "b.txt" [Byte.x21] 1 (Some "")] /\
  results (app (runCalculate (Demo.backend Demo.blank None)
                  (Demo.ready [Demo.aTxt; Demo.bTxt]))) =
    [mkResult "a.txt" "cid:hi" 2 "file"; mkResult "b.txt" "cid:!" 1 "file"] /\
  ~ (forall e : ImportEntry bytes, forall t : string,
       entry_type e = Some t ->
       result_type (entryRecord (Demo.backend Demo.blank None) e) = t).
Proof.
  split; [reflexivity|]. split; [reflexivity|].
  intros H.
  specialize (H (mkImportEntry "a.txt" Demo.hello 2 (Some "")) "" eq_refl).
  discriminate H.
Qed.

(** ** C8: running twice *)

Lemma run_keeps_readiness {Store Cid : Type} (B : Backend Store Cid)
    (s : AppState Store) :
  heliaInstance (app (runCalculate B s)) = None <-> heliaInstance s = None.
Proof.
  run_cases B s; try tauto;
    match goal with H : heliaInstance s = Some _ |- _ => rewrite H end;
    split; discriminate.
Qed.

Lemma same_answers {Store Cid : Type} (B : Backend Store Cid)
    (s1 s2 : AppState Store) :
  storeIndependent B ->
  files s1 = files s2 -> files s1 <> [] ->
  (heliaInstance s1 = None <-> heliaInstance s2 = None) ->
  results (app (runCalculate B s1)) = results (app (runCalculate B s2)) /\
  error (app (runCalculate B s1)) = error (app (runCalculate B s2)).
Proof.
  intros HB Hfs Hne Hrd.
  assert (Hne2 : files s2 <> []) by (rewrite <- Hfs; exact Hne).
  destruct (heliaInstance s2) as [st2|] eqn:Hh2.
  2:{ assert (Hh1 : heliaInstance s1 = None) by now apply Hrd.
      unfold runCalculate.
      rewrite (run_not_ready B s1 Hne Hh1), (run_not_ready B s2 Hne2 Hh2).
      cbn. auto. }
  run_cases B s1; try contradiction.
  - match goal with H : heliaInstance s1 = None |- _ =>
      apply Hrd in H; discriminate H end.
  - unfold runCalculate. rewrite (run_read_error _ _ B s2 st2 e); auto. congruence.
  - destruct (addBytes B st2 (content entry) (kuboCompatibleOptions [entry]))
      as [st2' r2] eqn:E2.
    assert (r2 = Fulfilled cid).
    { destruct (HB st st2 (kuboCompatibleOptions [entry])) as [Hb _].
      specialize (Hb (content entry)).
      match goal with H : addBytes B st _ _ = _ |- _ => rewrite H, E2 in Hb end.
      cbn in Hb. congruence. }
    subst r2. unfold runCalculate.
    rewrite (run_single_ok _ _ B s2 st2 entry st2' cid); auto. congruence.
  - destruct (addBytes B st2 (content entry) (kuboCompatibleOptions [entry]))
      as [st2' r2] eqn:E2.
    assert (r2 = Rejected e).
    { destruct (HB st st2 (kuboCompatibleOptions [entry])) as [Hb _].
      specialize (Hb (content entry)).
      match goal with H : addBytes B st _ _ = _ |- _ => rewrite H, E2 in Hb end.
      cbn in Hb. congruence. }
    subst r2. unfold runCalculate.
    rewrite (run_single_error _ _ B s2 st2 entry st2' e); auto. congruence.
  - destruct (addAll B st2 entries (kuboCompatibleOptions entries))
      as [st2' r2] eqn:E2.
    assert (r2 = (ys, None)).
    { destruct (HB st st2 (kuboCompatibleOptions entries)) as [_ Hb].
      specialize (Hb entries).
      match goal with H : addAll B st _ _ = _ |- _ => rewrite H, E2 in Hb end.
      cbn in Hb. congruence. }
    subst r2. unfold runCalculate.
    rewrite (run_multi_ok _ _ B s2 st2 entries st2' ys); auto. congruence.
  - destruct (addAll B st2 entries (kuboCompatibleOptions entries))
      as [st2' r2] eqn:E2.
    assert (r2 = (ys, Some e)).
    { destruct (HB st st2 (kuboCompatibleOptions entries)) as [_ Hb].
      specialize (Hb entries).
      match goal with H : addAll B st _ _ = _ |- _ => rewrite H, E2 in Hb end.
      cbn in Hb. congruence. }
    subst r2. unfold runCalculate.
    rewrite (run_multi_error _ _ B s2 st2 entries st2' ys e); auto. congruence.
Qed.

(** C8. Provided the importer's answers do not depend on the contents
    of its store, what a run publishes is determined by the selected
    files alone: two runs over the same files - from whatever earlier
    results, errors or store contents, and in particular a second run
    right after a first - publish the same records, CID for CID, and
    report the same error. *)
Theorem same_input_same_cids {Store Cid : Type} (B : Backend Store Cid)
    (s1 s2 : AppState Store) :
  storeIndependent B ->
  files s1 = files s2 -> files s1 <> [] ->
  (heliaInstance s1 = None <-> heliaInstance s2 = None) ->
  results (app (runCalculate B s1)) = results (app (runCalculate B s2)) /\
  map result_cid (results (app (runCalculate B s1))) =
    map result_cid (results (app (runCalculate B s2))) /\
  rootCid (results (app (runCalculate B s1))) =
    rootCid (results (app (runCalculate B s2))) /\
  error (app (runCalculate B s1)) = error (app (runCalculate B s2)) /\
  results (app (runCalculate B (app (runCalculate B s1)))) =
    results (app (runCalculate B s1)).
Proof.
  intros HB Hfs Hne Hrd.
  destruct (same_answers B s1 s2 HB Hfs Hne Hrd) as [Hres Herr].
  rewrite Hres. repeat split; auto.
  rewrite <- Hres.
  apply (same_answers B (app (runCalculate B s1)) s1 HB).
  - apply run_keeps_files.
  - now rewrite run_keeps_files.
  - apply run_keeps_readiness.
Qed.

Lemma demo_storeIndependent (yields : list FileEntry -> Options -> list (ImportEntry bytes))
    (quota : option nat) :
  storeIndependent (Demo.backend yields quota).
Proof. intros st1 st2 o. split; intros; reflexivity. Defined.

Lemma same_input_same_cids_witness :
  storeIndependent (Demo.backend (Demo.flat true) None) /\
  files (Demo.ready [Demo.aTxt; Demo.bTxt]) =
    files (mkAppState [Demo.aTxt; Demo.bTxt] [mkResult "old" "cid:old" 0 "file"]
             false "stale" (Some 7)) /\
  results (app (runCalculate (Demo.backend (Demo.flat true) None)
                  (Demo.ready [Demo.aTxt; Demo.bTxt]))) =
  results (app (runCalculate (Demo.backend (Demo.flat true) None)
                  (mkAppState [Demo.aTxt; Demo.bTxt]
                     [mkResult "old" "cid:old" 0 "file"] false "stale" (Some 7)))).
Proof.
  split; [apply demo_storeIndependent|]. split; [reflexivity|].
  apply (same_input_same_cids (Demo.backend (Demo.flat true) None)
           (Demo.ready [Demo.aTxt; Demo.bTxt])
           (mkAppState [Demo.aTxt; Demo.bTxt] [mkResult "old" "cid:old" 0 "file"]
              false "stale" (Some 7))).
  - apply demo_storeIndependent.
  - reflexivity.
  - discriminate.
  - split; discriminate.
Defined.

(** ** C7: the number of chunks *)

Lemma ceil_small (size len : nat) :
  0 < len -> len <= size -> (len + size - 1) / size = 1.
Proof.
  intros H0 Hle. symmetry.
  apply (Nat.div_unique (len + size - 1) size 1 (len - 1)); lia.
Qed.

Lemma ceil_step (size len : nat) :
  size < len -> 0 < size ->
  (len + size - 1) / size = S ((len - size + size - 1) / size).
Proof.
  intros Hlt H0.
  replace (len + size - 1) with ((len - size + size - 1) + 1 * size) by lia.
  rewrite Nat.div_add by lia. lia.
Qed.

Lemma cut_length (size : nat) (data : bytes) :
  0 < size ->
  length (Chunker.cut size data) =
  if (length data =? 0)%nat then 1 else (length data + size - 1) / size.
Proof.
  intros Hs. funelim (Chunker.cut size data); [lia | |].
  - cbn [length]. destruct (Nat.eqb_spec (length data) 0) as [E|E]; [reflexivity|].
    symmetry. apply ceil_small; lia.
  - cbn [length].
    match goal with IH : _ -> length (Chunker.cut _ _) = _ |- _ => rewrite (IH Hs) end.
    rewrite length_skipn.
    destruct (Nat.eqb_spec (length data - S n) 0) as [E|E]; [lia|].
    destruct (Nat.eqb_spec (length data) 0) as [E'|E']; [lia|].
    symmetry. apply ceil_step; lia.
Qed.

Lemma cut_concat (size : nat) (data : bytes) :
  concat (Chunker.cut size data) = data.
Proof.
  funelim (Chunker.cut size data); cbn [concat].
  - apply app_nil_r.
  - apply app_nil_r.
  - match goal with IH : concat (Chunker.cut _ _) = _ |- _ => rewrite IH end.
    apply firstn_skipn.
Qed.

Lemma cut_bounded (size : nat) (data : bytes) :
  0 < size -> Forall (fun c => length c <= size) (Chunker.cut size data).
Proof.
  intros Hs. funelim (Chunker.cut size data); [lia | |].
  - constructor; [assumption | constructor].
  - constructor; [rewrite length_firstn; lia | auto].
Qed.

Lemma cut_empty (size : nat) : Chunker.cut size [] = [[]].
Proof. destruct size; reflexivity. Qed.

(** C7. Under the options the component passes ([maxChunkSize] =
    262144), the chunker cuts a file of [L] bytes into [ceil(L / 262144)]
    chunks - the least [k] with [L <= k * 262144] - when [L > 0], and
    into exactly one empty chunk when [L = 0]; the chunks are at most
    262144 bytes long and put end to end give the file back. *)
Theorem chunk_count (fileEntries : list FileEntry) (data : bytes) :
  maxChunkSize (chunkerOptions (kuboCompatibleOptions fileEntries)) = 262144%N /\
  N.of_nat (length (Chunker.chunksOf (kuboCompatibleOptions fileEntries) data)) =
    (if (length data =? 0)%nat then 1
     else (N.of_nat (length data) + 262143) / 262144)%N /\
  (N.of_nat (length data) <=
     N.of_nat (length (Chunker.chunksOf (kuboCompatibleOptions fileEntries) data))
     * 262144)%N /\
  (0 < length data ->
   (N.of_nat (length (Chunker.chunksOf (kuboCompatibleOptions fileEntries) data))
    * 262144 < N.of_nat (length data) + 262144)%N) /\
  (length data = 0 ->
   Chunker.chunksOf (kuboCompatibleOptions fileEntries) data = [[]]) /\
  concat (Chunker.chunksOf (kuboCompatibleOptions fileEntries) data) = data /\
  Forall (fun c => (N.of_nat (length c) <= 262144)%N)
    (Chunker.chunksOf (kuboCompatibleOptions fileEntries) data).
Proof.
  unfold Chunker.chunksOf.
  cbn [kuboCompatibleOptions chunkerOptions maxChunkSize].
  remember (N.to_nat 262144) as size eqn:Hsize.
  assert (HN : N.of_nat size = 262144%N) by (subst size; apply N2Nat.id).
  assert (Hpos : 0 < size) by (destruct size; [discriminate HN | lia]).
  clear Hsize.
  assert (Hcount : N.of_nat (length (Chunker.cut size data)) =
                   (if (length data =? 0)%nat then 1
                    else (N.of_nat (length data) + 262143) / 262144)%N).
  { rewrite (cut_length size data Hpos).
    destruct (length data =? 0)%nat; [reflexivity|].
    rewrite Nat2N.inj_div, HN. f_equal. lia. }
  split; [reflexivity|]. split; [exact Hcount|].
  rewrite Hcount. split; [|split; [|split; [|split]]].
  - destruct (Nat.eqb_spec (length data) 0) as [E|E]; [rewrite E; cbn; lia|].
    pose proof (N.mod_lt (N.of_nat (length data) + 262143) 262144 ltac:(discriminate)) as Hr.
    pose proof (N.div_mod (N.of_nat (length data) + 262143) 262144 ltac:(discriminate)) as Hq.
    clear Hcount.
    set (q := ((N.of_nat (length data) + 262143) / 262144)%N) in *.
    set (r := ((N.of_nat (length data) + 262143) mod 262144)%N) in *.
    clearbody q r. lia.
  - intros H0. destruct (Nat.eqb_spec (length data) 0) as [E|E]; [lia|].
    pose proof (N.div_mod (N.of_nat (length data) + 262143) 262144 ltac:(discriminate)) as Hq.
    clear Hcount.
    set (q := ((N.of_nat (length data) + 262143) / 262144)%N) in *.
    set (r := ((N.of_nat (length data) + 262143) mod 262144)%N) in *.
    clearbody q r. lia.
  - intros H0. destruct data; [apply cut_empty | discriminate H0].
  - apply cut_concat.
  - eapply Forall_impl; [|apply (cut_bounded size data Hpos)].
    cbn beta. intros c Hc. lia.
Qed.

(** ** Concrete runs *)

Example includes_nested : includes "dir/a.txt" "/" = true.
Proof. reflexivity. Qed.

Example includes_top_level : includes "a.txt" "/" = false.
Proof. reflexivity. Qed.

Example cut_five_by_two :
  Chunker.cut 2 [Byte.x61; Byte.x62; Byte.x63; Byte.x64; Byte.x65] =
  [[Byte.x61; Byte.x62]; [Byte.x63; Byte.x64]; [Byte.x65]].
Proof. reflexivity. Qed.

Example cut_four_by_two :
  Chunker.cut 2 [Byte.x61; Byte.x62; Byte.x63; Byte.x64] =
  [[Byte.x61; Byte.x62]; [Byte.x63; Byte.x64]].
Proof. reflexivity. Qed.

Example run_single_file :
  runCalculate (Demo.backend (Demo.flat true) None) (Demo.ready [Demo.aTxt]) =
  mkWorld
    (mkAppState [Demo.aTxt] [mkResult "a.txt" "cid:hi" 2 "file"] false "" (Some 1))
    [SetIsProcessing true; SetError ""; SetResults [];
     CallAddBytes Demo.hello (mkOptions 1 true false (mkChunkerOptions 262144) false);
     SetResults [mkResult "a.txt" "cid:hi" 2 "file"];
     SetIsProcessing false].
Proof. reflexivity. Qed.

Example run_nested_single_file :
  results (app (runCalculate (Demo.backend (Demo.flat true) None)
                  (Demo.ready [Demo.nested]))) =
  [mkResult "dir/a.txt" "cid:hi" 2 "file"; mkResult "" "cid:/hi" 2 "directory"].
Proof. reflexivity. Qed.

Example run_unreadable_file :
  app (runCalculate (Demo.backend (Demo.flat true) None)
         (Demo.ready [Demo.aTxt; Demo.unreadable])) =
  mkAppState [Demo.aTxt; Demo.unreadable] [] false
    "Error calculating CIDs: NotFoundError" (Some 0).
Proof. reflexivity. Qed.

Example run_generator_throws :
  runCalculate (Demo.backend (Demo.flat true) (Some 1))
    (Demo.ready [Demo.aTxt; Demo.bTxt]) =
  mkWorld
    (mkAppState [Demo.aTxt; Demo.bTxt] [] false
       "Error calculating CIDs: Error: quota exceeded" (Some 1))
    [SetIsProcessing true; SetError ""; SetResults [];
     CallAddAll [mkFileEntry "a.txt" Demo.hello; mkFileEntry "b.txt" [Byte.x21]]
       (mkOptions 1 true false (mkChunkerOptions 262144) true);
     SetError "Error calculating CIDs: Error: quota exceeded";
     SetIsProcessing false].
Proof. reflexivity. Qed.

(** With an importer that does label its entries, the root panel picks
    the first directory record it meets. *)
Example rootCid_typed_entries :
  rootCid (results (app (runCalculate (Demo.backend (Demo.under "dir" true) None)
                           (Demo.ready [Demo.nested; Demo.nestedB])))) =
  Some "cid:hi!".
Proof. reflexivity. Qed.

Example mount_select_click :
  fold_left (step (Demo.backend (Demo.flat false) None))
    [Mount; Select [Demo.aTxt; Demo.bTxt]; Click] (initialState nat) =
  mkAppState [Demo.aTxt; Demo.bTxt]
    [mkResult "a.txt" "cid:hi" 2 "file";
     mkResult "b.txt" "cid:!" 1 "file";
     mkResult "" "cid:/hi!" 3 "file"]
    false "" (Some 1).
Proof. reflexivity. Qed.

(** * The rest of the component *)

(** ** Mounting *)

Lemma initHelia_spec {Store Cid : Type} (B : Backend Store Cid) (s : AppState Store) :
  app (fst (initHelia B (mkWorld s []))) =
  match createHelia B with
  | Fulfilled st => putStore st s
  | Rejected e =>
      mkAppState (files s) (results s) (isProcessing s)
        ("Failed to initialize Helia: " ++ e)%string (heliaInstance s)
  end.
Proof.
  unfold initHelia, try_catch_finally, bind, await.
  destruct (createHelia B); reflexivity.
Qed.

Lemma run_keeps_instance_unset {Store Cid : Type} (B : Backend Store Cid)
    (s : AppState Store) :
  heliaInstance s = None ->
  heliaInstance (app (runCalculate B s)) = None /\
  (files s <> [] -> results (app (runCalculate B s)) = []) /\
  (files s = [] -> results (app (runCalculate B s)) = results s).
Proof.
  intros Hh. run_cases B s; try congruence; repeat split; congruence.
Qed.

(** While [createHelia] rejects, no event sets the instance or
    publishes a record. *)
Lemma rejected_init_invariant {Store Cid : Type} (B : Backend Store Cid)
    (e : Error) (s : AppState Store) :
  createHelia B = Rejected e -> reachable B s ->
  heliaInstance s = None /\ results s = [].
Proof.
  intros Hc [evs ->]. induction evs as [|ev evs IH] using rev_ind.
  - split; reflexivity.
  - rewrite fold_left_app. cbn [fold_left].
    set (s0 := fold_left (step B) evs (initialState Store)) in *.
    destruct IH as [IHh IHr]. destruct ev; cbn [step].
    + rewrite initHelia_spec, Hc. cbn. auto.
    + cbn. auto.
    + destruct (run_keeps_instance_unset B s0 IHh) as (H1 & H2 & H3).
      split; [exact H1|].
      destruct (list_eq_dec_nil (files s0)) as [Hf|Hf].
      * rewrite (H3 Hf). exact IHr.
      * exact (H2 Hf).
Qed.

Lemma reachable_step {Store Cid : Type} (B : Backend Store Cid)
    (s : AppState Store) (ev : Event) :
  reachable B s -> reachable B (step B s ev).
Proof.
  intros [evs ->]. exists (evs ++ [ev]). now rewrite fold_left_app.
Qed.

(** X1. When [createHelia] rejects, the component never becomes ready:
    in every state it can reach the instance is unset and no record is
    published; a selection wipes the initialisation failure from the
    error cell; and every calculation over a non-empty selection ends,
    without an importer call, on the "still initializing" message. *)
Theorem failed_init_never_ready {Store Cid : Type} (B : Backend Store Cid)
    (e : Error) (s : AppState Store) :
  createHelia B = Rejected e -> reachable B s ->
  heliaInstance s = None /\
  results s = [] /\
  error (step B s Mount) = ("Failed to initialize Helia: " ++ e)%string /\
  (forall fs, error (step B s (Select fs)) = "" /\
              heliaInstance (step B s (Select fs)) = None) /\
  (files s <> [] ->
   error (step B s Click) = notReadyMessage /\
   results (step B s Click) = [] /\
   importerOptions (trace (runCalculate B s)) = []).
Proof.
  intros Hc Hr. destruct (rejected_init_invariant B e s Hc Hr) as [Hh Hres].
  split; [exact Hh|]. split; [exact Hres|]. split; [|split].
  - cbn [step]. rewrite initHelia_spec, Hc. reflexivity.
  - intros fs. cbn. auto.
  - intros Hf. cbn [step]. unfold runCalculate.
    rewrite (run_not_ready B s Hf Hh). cbn. auto.
Qed.

Lemma failed_init_never_ready_witness :
  createHelia Demo.broken = Rejected "Error: no storage" /\
  reachable Demo.broken
    (fold_left (step Demo.broken) [Mount; Select [Demo.aTxt]; Click]
       (initialState nat)) /\
  heliaInstance
    (fold_left (step Demo.broken) [Mount; Select [Demo.aTxt]; Click]
       (initialState nat)) = None.
Proof.
  assert (Hr : reachable Demo.broken
                 (fold_left (step Demo.broken) [Mount; Select [Demo.aTxt]; Click]
                    (initialState nat))).
  { exists [Mount; Select [Demo.aTxt]; Click]. reflexivity. }
  split; [reflexivity|]. split; [exact Hr|].
  apply (failed_init_never_ready Demo.broken "Error: no storage" _ eq_refl Hr).
Defined.

Lemma step_keeps_ready {Store Cid : Type} (B : Backend Store Cid)
    (s : AppState Store) (ev : Event) :
  heliaInstance s <> None -> heliaInstance (step B s ev) <> None.
Proof.
  intros Hh. destruct ev; cbn [step].
  - rewrite initHelia_spec. destruct (createHelia B); cbn; [discriminate | exact Hh].
  - cbn. exact Hh.
  - intros H. apply run_keeps_readiness in H. contradiction.
Qed.

(** X2. Once the instance is set it stays set, whatever happens next -
    selections, calculations that succeed or fail, even a later
    initialisation that fails - and from then on no calculation ends on
    the "still initializing" message. *)
Theorem ready_stays_ready {Store Cid : Type} (B : Backend Store Cid)
    (s : AppState Store) (evs : list Event) :
  heliaInstance s <> None ->
  heliaInstance (fold_left (step B) evs s) <> None /\
  error (step B (fold_left (step B) evs s) Click) <> notReadyMessage.
Proof.
  intros Hh.
  assert (Hready : heliaInstance (fold_left (step B) evs s) <> None).
  { revert s Hh. induction evs as [|ev evs IH]; intros s Hh; cbn [fold_left].
    - exact Hh.
    - apply IH. now apply step_keeps_ready. }
  split; [exact Hready|]. cbn [step].
  revert Hready. generalize (fold_left (step B) evs s). intros s' Hs'.
  run_cases B s'; try discriminate; congruence.
Qed.

Lemma ready_stays_ready_witness :
  heliaInstance (Demo.ready [Demo.aTxt]) <> None /\
  heliaInstance
    (fold_left (step Demo.broken) [Mount; Click; Select [Demo.unreadable]; Click]
       (Demo.ready [Demo.aTxt])) <> None.
Proof.
  assert (H : heliaInstance (Demo.ready [Demo.aTxt]) <> None) by discriminate.
  split; [exact H|].
  destruct (ready_stays_ready Demo.broken (Demo.ready [Demo.aTxt])
              [Mount; Click; Select [Demo.unreadable]; Click] H) as (H1 & _).
  exact H1.
Defined.

(** ** Between events *)

Lemma calcError_nonempty (e : Error) : (calcErrorPrefix ++ e)%string <> "".
Proof. discriminate. Qed.





(** ** The Calculate button *)



(** ** The "Selected Files" panel *)

(** X6. The panel accounts for every selected file: it lists at most
    five rows, the labels of the first files in selection order, and
    the count in the "more files" line - shown only beyond five files,
    and then positive - is the number of files not listed. *)
Theorem selected_panel_accounts (fs : list File) :
  length (selectedRows fs) <= 5 /\
  length (selectedRows fs) +
    match moreFiles fs with Some n => n | None => 0 end = length fs /\
  (moreFiles fs = None <-> length fs <= 5) /\
  (forall n, moreFiles fs = Some n -> 0 < n) /\
  (forall i, i < 5 ->
     nth_error (selectedRows fs) i = option_map filePath (nth_error fs i)).
Proof.
  unfold selectedRows, moreFiles. rewrite length_map, length_firstn.
  destruct (Nat.ltb_spec 5 (length fs)) as [H|H].
  - repeat split; try lia; try discriminate.
    + intros n [= <-]. lia.
    + intros i Hi. rewrite nth_error_map, nth_error_firstn.
      apply Nat.ltb_lt in Hi. now rewrite Hi.
  - repeat split; try lia; try discriminate.
    intros i Hi. rewrite nth_error_map, nth_error_firstn.
    apply Nat.ltb_lt in Hi. now rewrite Hi.
Qed.

(** ** The root panel *)

(** X7. The CID in the root panel is never made up: whenever the panel
    is shown there are at least two records and the CID shown is the
    CID of one of them. *)
Theorem rootCid_is_listed (rs : list Result) (c : string) :
  rootCid rs = Some c ->
  1 < length rs /\ exists r, In r rs /\ result_cid r = c.
Proof.
  unfold rootCid. destruct (Nat.ltb_spec 1 (length rs)) as [Hl|Hl]; [|discriminate].
  intros [= <-]. split; [exact Hl|].
  assert (Hlast : exists r, last_opt rs = Some r /\ In r rs).
  { unfold last_opt. destruct (nth_error rs (length rs - 1)) as [r|] eqn:E.
    - exists r. split; [reflexivity|]. eapply nth_error_In; eassumption.
    - apply nth_error_None in E. lia. }
  destruct Hlast as (l & Hl1 & Hl2). rewrite Hl1.
  destruct (find isRootRecord rs) as [r|] eqn:Ef; cbn [option_map orElse].
  - unfold oror. destruct (truthy (result_cid r)).
    + exists r. split; [|reflexivity]. apply find_some in Ef. tauto.
    + exists l. auto.
  - exists l. auto.
Qed.

Lemma rootCid_is_listed_witness :
  rootCid [mkResult "a.txt" "cid:hi" 2 "file"; mkResult "" "cid:/hi" 2 "file"] =
    Some "cid:/hi" /\
  1 < length [mkResult "a.txt" "cid:hi" 2 "file"; mkResult "" "cid:/hi" 2 "file"].
Proof.
  split; [reflexivity|].
  destruct (rootCid_is_listed
              [mkResult "a.txt" "cid:hi" 2 "file"; mkResult "" "cid:/hi" 2 "file"]
              "cid:/hi" eq_refl) as (H & _).
  exact H.
Defined.

(** ** What reaches the importer *)

Lemma promise_all_one_rejected (fs : list File) (f : File) (e : Error) :
  In f fs -> arrayBuffer f = Rejected e ->
  exists e', promise_all (map toFileEntry fs) = Rejected e'.
Proof.
  induction fs as [|g fs IH]; intros Hin Hr; [contradiction|].
  cbn. unfold toFileEntry at 1. destruct (arrayBuffer g) as [buf|e'] eqn:Hg.
  - destruct Hin as [->|Hin]; [congruence|].
    destruct (IH Hin Hr) as (e' & ->). eauto.
  - eauto.
Qed.

(** X8. One unreadable file stops the whole import before it starts:
    the importer is not called - not even for the files that could be
    read - its store is left as it was, nothing is published, and, the
    instance being ready, the error reported is the read error of one of
    the selected files. *)
Theorem unreadable_file_imports_nothing {Store Cid : Type} (B : Backend Store Cid)
    (s : AppState Store) (f : File) (e : Error) :
  In f (files s) -> arrayBuffer f = Rejected e ->
  importerOptions (trace (runCalculate B s)) = [] /\
  heliaInstance (app (runCalculate B s)) = heliaInstance s /\
  results (app (runCalculate B s)) = [] /\
  (heliaInstance s <> None ->
   exists g e', In g (files s) /\ arrayBuffer g = Rejected e' /\
                error (app (runCalculate B s)) = (calcErrorPrefix ++ e')%string).
Proof.
  intros Hin Hr.
  destruct (promise_all_one_rejected (files s) f e Hin Hr) as (e' & He').
  run_cases B s; try congruence.
  - match goal with H : files s = [] |- _ => rewrite H in Hin; contradiction end.
  - repeat split; auto. intros Hn. congruence.
  - repeat split; auto. intros _.
    match goal with H : promise_all _ = Rejected _ |- _ =>
      destruct (promise_all_rejected _ _ H) as (g & Hg & Hgr) end.
    eauto.
Qed.

Lemma unreadable_file_imports_nothing_witness :
  In Demo.unreadable (files (Demo.ready [Demo.aTxt; Demo.unreadable; Demo.bTxt])) /\
  arrayBuffer Demo.unreadable = Rejected "NotFoundError" /\
  importerOptions
    (trace (runCalculate (Demo.backend (Demo.flat true) None)
              (Demo.ready [Demo.aTxt; Demo.unreadable; Demo.bTxt]))) = [].
Proof.
  assert (Hin : In Demo.unreadable
                  (files (Demo.ready [Demo.aTxt; Demo.unreadable; Demo.bTxt]))).
  { right. left. reflexivity. }
  split; [exact Hin|]. split; [reflexivity|].
  destruct (unreadable_file_imports_nothing (Demo.backend (Demo.flat true) None)
              (Demo.ready [Demo.aTxt; Demo.unreadable; Demo.bTxt])
              Demo.unreadable "NotFoundError" Hin eq_refl) as (H & _).
  exact H.
Defined.

(** X9. A run calls the importer at most once.  What [addAll] is given
    is the selection itself: one entry per selected file, in selection
    order, with the file's label as path and the file's bytes as
    content, and wrapping on.  What [addBytes] is given is the bytes of
    the one selected file, with wrapping off.  Either way the other
    settings are the fixed ones: CID version 1, raw leaves, no trickle
    layout, 262144-byte chunks. *)
Theorem importer_input_matches_selection {Store Cid : Type} (B : Backend Store Cid)
    (s : AppState Store) :
  length (importerOptions (trace (runCalculate B s))) <= 1 /\
  (forall es o, In (CallAddAll es o) (trace (runCalculate B s)) ->
     length es = length (files s) /\
     map path es = map filePath (files s) /\
     map (fun e => Fulfilled (content e)) es = map arrayBuffer (files s) /\
     o = kuboCompatibleOptions es /\
     wrapWithDirectory o = true) /\
  (forall c o, In (CallAddBytes c o) (trace (runCalculate B s)) ->
     exists f, files s = [f] /\ arrayBuffer f = Fulfilled c /\
               o = kuboCompatibleOptions [mkFileEntry (filePath f) c] /\
               wrapWithDirectory o = false) /\
  (forall o, In o (importerOptions (trace (runCalculate B s))) ->
     cidVersion o = 1%N /\ rawLeaves o = true /\ trickle o = false /\
     maxChunkSize (chunkerOptions o) = 262144%N).
Proof.
  assert (Hmulti : forall es, files s <> [] ->
            promise_all (map toFileEntry (files s)) = Fulfilled es ->
            isSingleFile es = false ->
            length es = length (files s) /\
            map path es = map filePath (files s) /\
            map (fun e => Fulfilled (content e)) es = map arrayBuffer (files s) /\
            kuboCompatibleOptions es = kuboCompatibleOptions es /\
            wrapWithDirectory (kuboCompatibleOptions es) = true).
  { intros es Hf Hr Hs. destruct (promise_all_fulfilled _ _ Hr) as (Hl & Hp & Hc).
    repeat split; auto. rewrite wrapWithDirectory_branch, Hs; [reflexivity|].
    intros ->. destruct (files s); [congruence | discriminate Hl]. }
  assert (Hone : forall entry, files s <> [] ->
            promise_all (map toFileEntry (files s)) = Fulfilled [entry] ->
            includes (path entry) "/" = false ->
            exists f, files s = [f] /\ arrayBuffer f = Fulfilled (content entry) /\
              kuboCompatibleOptions [entry] =
                kuboCompatibleOptions [mkFileEntry (filePath f) (content entry)] /\
              wrapWithDirectory (kuboCompatibleOptions [entry]) = false).
  { intros entry Hf Hr Hp. destruct (promise_all_fulfilled _ _ Hr) as (Hl & _).
    destruct (files s) as [|f [|g fs]] eqn:Efs; try discriminate Hl.
    apply read_one_file in Hr. destruct Hr as (buf & Hb & [= ->]).
    exists f. cbn [content]. repeat split; auto.
    cbn [kuboCompatibleOptions wrapWithDirectory somePathHasSlash existsb path length].
    cbn [path] in Hp. rewrite Hp. reflexivity. }
  run_cases B s; cbn [prologue Datatypes.app importerOptions length In];
    (split; [lia|]); (split; [|split]);
    try (intros ? ? Hin;
         repeat (destruct Hin as [Hin|Hin]; try discriminate Hin);
         try contradiction);
    try (intros ? Hin;
         repeat (destruct Hin as [Hin|Hin]; try discriminate Hin);
         try contradiction; subst; repeat split; reflexivity).
  - injection Hin as <- <-. eapply Hone; eassumption.
  - injection Hin as <- <-. eapply Hone; eassumption.
  - injection Hin as <- <-. eapply Hmulti; eassumption.
  - injection Hin as <- <-. eapply Hmulti; eassumption.
Qed.

(** ** Icons *)

Lemma entryRecord_folder {Store Cid : Type} (B : Backend Store Cid)
    (e : ImportEntry Cid) :
  resultIcon (entryRecord B e) = FolderIcon <-> entry_type e = Some "directory".
Proof.
  unfold resultIcon. rewrite entryRecord_kind.
  destruct (entry_type e) as [t|]; cbn.
  - destruct (String.eqb_spec t "") as [->|Hne]; cbn.
    + split; discriminate.
    + destruct (String.eqb_spec t "directory") as [->|Hd].
      * tauto.
      * split; [discriminate | congruence].
  - split; discriminate.
Qed.

(** X10. A record published by a run shows the folder icon only if it
    was made from an entry that [addAll] yielded with the [type]
    ["directory"]: the single-file branch and the ["file"] fallback
    never produce a folder, so with an importer that leaves [type] out
    every directory is drawn as a file. *)
Theorem folder_icon_provenance {Store Cid : Type} (B : Backend Store Cid)
    (s : AppState Store) (r : Result) :
  files s <> [] ->
  In r (results (app (runCalculate B s))) ->
  resultIcon r = FolderIcon ->
  exists st entries e,
    heliaInstance s = Some st /\
    promise_all (map toFileEntry (files s)) = Fulfilled entries /\
    In e (fst (snd (addAll B st entries (kuboCompatibleOptions entries)))) /\
    entry_type e = Some "directory" /\
    r = entryRecord B e.
Proof.
  intros Hf. run_cases B s; try contradiction; cbn [In]; intros Hin Hi;
    try contradiction.
  - destruct Hin as [<-|[]]. discriminate Hi.
  - apply in_map_iff in Hin. destruct Hin as (e & <- & He).
    exists st, entries, e. repeat split; auto.
    + match goal with H : addAll _ _ _ _ = _ |- _ => rewrite H end. exact He.
    + now apply entryRecord_folder in Hi.
Qed.

Lemma folder_icon_provenance_witness :
  files (Demo.ready [Demo.nested]) <> [] /\
  In (mkResult "" "cid:/hi" 2 "directory")
     (results (app (runCalculate (Demo.backend (Demo.flat true) None)
                      (Demo.ready [Demo.nested])))) /\
  resultIcon (mkResult "" "cid:/hi" 2 "directory") = FolderIcon /\
  exists st entries e,
    heliaInstance (Demo.ready [Demo.nested]) = Some st /\
    promise_all (map toFileEntry (files (Demo.ready [Demo.nested]))) =
      Fulfilled entries /\
    In e (fst (snd (addAll (Demo.backend (Demo.flat true) None) st entries
                      (kuboCompatibleOptions entries)))) /\
    entry_type e = Some "directory" /\
    mkResult "" "cid:/hi" 2 "directory" =
      entryRecord (Demo.backend (Demo.flat true) None) e.
Proof.
  assert (Hf : files (Demo.ready [Demo.nested]) <> []) by discriminate.
  assert (Hin : In (mkResult "" "cid:/hi" 2 "directory")
                  (results (app (runCalculate (Demo.backend (Demo.flat true) None)
                                   (Demo.ready [Demo.nested]))))).
  { right. left. reflexivity. }
  split; [exact Hf|]. split; [exact Hin|]. split; [reflexivity|].
  exact (folder_icon_provenance (Demo.backend (Demo.flat true) None)
           (Demo.ready [Demo.nested]) _ Hf Hin eq_refl).
Defined.
